(** * Pod log streaming client: a model of [src/log.ts]

    [Log.log] builds a GET request for the log endpoint of a container,
    lets the cluster configuration decorate it, issues it through the
    [request] HTTP library and wires two handlers on it: the completion
    callback of [request(options, callback)] and a listener on the
    ['response'] event.  The promise it returns is settled by these
    handlers.

    The model is a shallow embedding.  The configuration object, the
    status deserializer and the legacy [done] callback are parameters; the
    HTTP library is represented by the sequence of events it delivers to
    the two handlers. *)

From Stdlib Require Import ZArith Bool Ascii String.
From stdpp Require Import gmap strings list fin_maps.

Local Open Scope Z_scope.

(** ** Data *)

(** Values a property of a [LogOptions] object can hold. *)
Inductive JsValue :=
| JUndefined
| JBool (b : bool)
| JNumber (n : Z)
| JString (s : string).

(** A [LogOptions] value is a plain JavaScript object: the type names seven
    optional fields, at run time it is a finite map from property names to
    values, and nothing prevents further keys. *)
Abbreviation LogOptions := (gmap string JsValue).

(** [request.Options] as [log] builds it.  [decorations] stands for the
    further fields (certificates, headers, ...) that [applyToRequest] may
    add; [log] itself sets none. *)
Record RequestOptions := mkRequestOptions {
  method : string;
  qs : gmap string JsValue;
  uri : string;
  decorations : gmap string JsValue;
}.

(** The handle returned by [request(...)]. *)
Inductive Request := mkRequest (requestOptions : RequestOptions).

(** The part of [http.IncomingMessage] the handlers look at. *)
Record Response := mkResponse {
  statusCode : Z;
  headers : list (string * string);
}.

(** [Cluster] is declared in [./config]; [log] reads its [server] field
    only. *)
Record Cluster := mkCluster {
  server : string;
}.

(** A chunk of body bytes, and a [Writable] seen as the chunks written to it
    so far. *)
Abbreviation Chunk := (list Byte.byte).
Abbreviation Writable := (list Chunk).

Section LogModel.

(** Errors raised by the HTTP library and by [applyToRequest]; the decoded
    JSON value and the decoded [V1Status] object. *)
Context {TransportError ApplyError Json V1Status : Type}.

(** [JSON.parse] and [ObjectSerializer.deserialize]; [None] stands for a
    thrown exception. *)
Variable JSON_parse : string -> option Json.
Variable deserialize : Json -> string -> option V1Status.

(** What the legacy [done] callback acts upon. *)
Context {World : Type}.

(** [KubeConfig] is declared in [./config]; it is taken here as the two
    operations [log] calls, each a parameter of the model.
    [getCurrentCluster] returns a cluster or nothing.  [applyToRequest] is
    awaited: [inl e] is a rejection of its promise, [inr o] the descriptor
    after decoration. *)
Record KubeConfig := mkKubeConfig {
  getCurrentCluster : option Cluster;
  applyToRequest : RequestOptions -> ApplyError + RequestOptions;
}.

Record Log := mkLog {
  config : KubeConfig;
}.

(** [HttpError] is declared in [./gen/api]; its fields are the three
    arguments of [new HttpError(response, body, statusCode)].  The body is
    either the deserialized status or the raw text. *)
Inductive ErrorBody :=
| Decoded (status : V1Status)
| Raw (body : string).

Record HttpError := mkHttpError {
  he_response : Response;
  he_body : ErrorBody;
  he_statusCode : Z;
}.

(** Reasons the returned promise can be rejected with. *)
Inductive Reason :=
| PlainError (message : string)
| ApplyRejected (e : ApplyError)
| TransportFailure (e : TransportError)
| ApiFailure (e : HttpError).

Inductive PromiseState :=
| Pending
| Fulfilled (req : Request)
| Rejected (reason : Reason).

(** The argument [done] receives: [null], the transport error or the
    response body. *)
Inductive DoneArg :=
| DoneNull
| DoneError (e : TransportError)
| DoneBody (body : string).

Definition Callback := DoneArg -> World -> World.

(** [() => undefined] *)
Definition noop : Callback := fun _ w => w.

(** The fifth argument: a function, an options object or [undefined]. *)
Inductive DoneOrOptions :=
| IsFunction (f : Callback)
| IsOptions (o : LogOptions)
| IsUndefined.

(** ** State of one invocation *)

Record St := mkSt {
  promise : PromiseState;            (* the promise returned by [log] *)
  applied : list RequestOptions;     (* calls of [applyToRequest] *)
  requested : list RequestOptions;   (* HTTP requests issued *)
  piped : bool;                      (* [req.pipe(stream)] was called *)
  sink : Writable;                   (* the caller's [stream] *)
  world : World;                     (* the callback's world *)
}.

Definition set_promise (p : PromiseState) (s : St) : St :=
  mkSt p (applied s) (requested s) (piped s) (sink s) (world s).

Definition set_world (w : World) (s : St) : St :=
  mkSt (promise s) (applied s) (requested s) (piped s) (sink s) w.

(** [resolve] and [reject] of a promise act on a pending promise only. *)
Definition resolve (req : Request) (s : St) : St :=
  match promise s with
  | Pending => set_promise (Fulfilled req) s
  | _ => s
  end.

Definition reject (reason : Reason) (s : St) : St :=
  match promise s with
  | Pending => set_promise (Rejected reason) s
  | _ => s
  end.

Definition call (done : Callback) (a : DoneArg) (s : St) : St :=
  set_world (done a (world s)) s.

(** [req.pipe(stream)] *)
Definition pipe (s : St) : St :=
  mkSt (promise s) (applied s) (requested s) true (sink s) (world s).

(** ** The two handlers *)

(** The callback given to [request(requestOptions, ...)] (lines 104-118).
    A missing [response] in the second branch is the [TypeError] of
    [response.statusCode]: the handler stops there. *)
Definition request_callback (done : Callback)
    (error : option TransportError) (response : option Response)
    (body : string) (s : St) : St :=
  match error with
  | Some e => call done (DoneError e) (reject (TransportFailure e) s)
  | None =>
      match response with
      | None => s
      | Some response =>
          if negb (statusCode response =? 200) then
            let s' :=
              match JSON_parse body with
              | Some json =>
                  match deserialize json "V1Status" with
                  | Some deserializedBody =>
                      reject (ApiFailure (mkHttpError response
                                (Decoded deserializedBody)
                                (statusCode response))) s
                  | None =>
                      reject (ApiFailure (mkHttpError response (Raw body)
                                (statusCode response))) s
                  end
              | None =>
                  reject (ApiFailure (mkHttpError response (Raw body)
                            (statusCode response))) s
              end in
            call done (DoneBody body) s'
          else call done DoneNull s
      end
  end.

(** The ['response'] listener (lines 119-124). *)
Definition on_response (req : Request) (response : Response) (s : St) : St :=
  if statusCode response =? 200 then resolve req (pipe s) else s.

(** ** The HTTP library, as the events it delivers *)

Inductive Event :=
| EvResponse (response : Response)
| EvData (chunk : Chunk)
| EvCallback (error : option TransportError) (response : option Response)
    (body : string).

(** A body chunk reaches the destinations the request is piped to. *)
Definition on_data (chunk : Chunk) (s : St) : St :=
  if piped s then
    mkSt (promise s) (applied s) (requested s) (piped s)
      (sink s ++ [chunk]) (world s)
  else s.

Definition dispatch (done : Callback) (req : Request) (ev : Event)
    (s : St) : St :=
  match ev with
  | EvResponse response => on_response req response s
  | EvData chunk => on_data chunk s
  | EvCallback error response body =>
      request_callback done error response body s
  end.

Fixpoint deliver (done : Callback) (req : Request) (evs : list Event)
    (s : St) : St :=
  match evs with
  | [] => s
  | ev :: evs => deliver done req evs (dispatch done req ev s)
  end.

(** What the library promises about one exchange: either the callback
    fires once with an error before any header, or the headers arrive
    once, body chunks follow, and the callback fires at most once, last,
    with an error or with the response whose headers were announced. *)
Fixpoint body_phase (r : Response) (evs : list Event) : bool :=
  match evs with
  | [] => true
  | EvData _ :: rest => body_phase r rest
  | EvCallback (Some _) _ _ :: rest =>
      match rest with [] => true | _ => false end
  | EvCallback None (Some r') _ :: rest =>
      match rest with
      | [] => statusCode r' =? statusCode r
      | _ => false
      end
  | _ => false
  end.

Definition transport_protocol (evs : list Event) : bool :=
  match evs with
  | [] => true
  | EvCallback (Some _) _ _ :: rest =>
      match rest with [] => true | _ => false end
  | EvResponse r :: rest => body_phase r rest
  | _ => false
  end.

Definition is_callback (ev : Event) : bool :=
  match ev with EvCallback _ _ _ => true | _ => false end.

(** The exchange is over: the completion callback has been invoked. *)
Definition completes (evs : list Event) : bool := existsb is_callback evs.

Definition is_ok_response (ev : Event) : bool :=
  match ev with
  | EvResponse r => statusCode r =? 200
  | _ => false
  end.

(** Headers with status 200 are among the events. *)
Definition ok_headers (evs : list Event) : bool := existsb is_ok_response evs.

Fixpoint data_chunks (evs : list Event) : list Chunk :=
  match evs with
  | [] => []
  | EvData c :: rest => c :: data_chunks rest
  | _ :: rest => data_chunks rest
  end.

(** ** [Log.log] *)

(** Lines 78-83. *)
Definition disambiguate (doneOrOptions : DoneOrOptions)
    (options : option LogOptions) : Callback * option LogOptions :=
  match doneOrOptions with
  | IsFunction f => (f, options)
  | IsOptions o => (noop, Some o)
  | IsUndefined => (noop, None)
  end.

(** Line 85. *)
Definition log_path (namespace podName : string) : string :=
  "/api/v1/namespaces/" +:+ namespace +:+ "/pods/" +:+ podName +:+ "/log".

(** [{ ...options, container: containerName }] *)
Definition query (options : option LogOptions) (containerName : string)
    : gmap string JsValue :=
  <["container" := JString containerName]> (default ∅ options).

Definition log (this : Log) (namespace podName containerName : string)
    (stream : Writable) (doneOrOptions : DoneOrOptions)
    (options : option LogOptions)
    (transport : list Event) (w : World) : St :=
  let '(done, options) := disambiguate doneOrOptions options in
  let path := log_path namespace podName in
  let s0 := mkSt Pending [] [] false stream w in
  match getCurrentCluster (config this) with
  | None => reject (PlainError "No currently active cluster") s0
  | Some cluster =>
      let url := server cluster +:+ path in
      let requestOptions :=
        mkRequestOptions "GET" (query options containerName) url ∅ in
      let s1 := mkSt Pending [requestOptions] [] false stream w in
      match applyToRequest (config this) requestOptions with
      | inl e => reject (ApplyRejected e) s1
      | inr requestOptions' =>
          let req := mkRequest requestOptions' in
          deliver done req transport
            (mkSt Pending [requestOptions] [requestOptions'] false stream w)
      end
  end.

(** ** Observations used by the properties *)

Definition is_fulfilled (p : PromiseState) : bool :=
  match p with Fulfilled _ => true | _ => false end.

Definition is_rejected (p : PromiseState) : bool :=
  match p with Rejected _ => true | _ => false end.


(** The effect of a run of body chunks. *)
Definition write_all (chunks : list Chunk) (s : St) : St :=
  if piped s then
    mkSt (promise s) (applied s) (requested s) (piped s)
      (sink s ++ chunks) (world s)
  else s.

(** The shapes an exchange that follows [transport_protocol] can have. *)
Inductive Exchange : list Event -> Prop :=
| ex_silent : Exchange []
| ex_refused e response body : Exchange [EvCallback (Some e) response body]
| ex_streaming r chunks : Exchange (EvResponse r :: map EvData chunks)
| ex_broken r chunks e response body :
    Exchange (EvResponse r :: map EvData chunks
                ++ [EvCallback (Some e) response body])
| ex_completed r chunks r' body :
    statusCode r' = statusCode r ->
    Exchange (EvResponse r :: map EvData chunks
                ++ [EvCallback None (Some r') body]).

(** The events that follow the first headers with status 200. *)
Fixpoint after_ok_headers (evs : list Event) : list Event :=
  match evs with
  | [] => []
  | ev :: rest => if is_ok_response ev then rest else after_ok_headers rest
  end.

End LogModel.


Arguments KubeConfig : clear implicits.
Arguments Log : clear implicits.
Arguments ErrorBody : clear implicits.
Arguments HttpError : clear implicits.
Arguments Reason : clear implicits.
Arguments PromiseState : clear implicits.
Arguments DoneArg : clear implicits.
Arguments Callback : clear implicits.
Arguments DoneOrOptions : clear implicits.
Arguments St : clear implicits.
Arguments Event : clear implicits.

(** ** Concrete collaborators for the examples

    Errors, JSON values and decoded statuses are strings; the parser
    accepts the bodies that start with an opening brace; the callback's
    world is the list of arguments it has been invoked with. *)

Definition parse_braced (body : string) : option string :=
  match body with
  | String "{"%char _ => Some body
  | _ => None
  end.

Definition decode_any (json kind : string) : option string := Some json.

Definition recorder : Callback string (list (DoneArg string)) :=
  fun a w => w ++ [a].

Definition no_cluster : Log string :=
  mkLog (mkKubeConfig None (fun o => inr o)).

Definition local_cluster : Log string :=
  mkLog (mkKubeConfig (Some (mkCluster "https://k8s.local:6443"))
           (fun o => inr o)).

Definition local_request : RequestOptions :=
  mkRequestOptions "GET" (query None "app")
    ("https://k8s.local:6443" +:+ log_path "default" "web-0") ∅.

Definition ok : Response := mkResponse 200 [].
Definition not_found : Response := mkResponse 404 [].
Definition line1 : Chunk := [Byte.x6c; Byte.x31; Byte.x0a].
Definition line2 : Chunk := [Byte.x6c; Byte.x32; Byte.x0a].

Definition status_body : string := "{message:not found}".

(** A complete exchange with status 200 and two body chunks. *)
Definition streamed : list (Event string) :=
  [EvResponse ok; EvData line1; EvData line2; EvCallback None (Some ok) ""].

(** The connection is refused: the callback gets the error at once. *)
Definition refused : list (Event string) :=
  [EvCallback (Some "ECONNREFUSED") None ""].

(** A complete exchange with status 404 and a status object as body. *)
Definition missing : list (Event string) :=
  [EvResponse not_found; EvCallback None (Some not_found) status_body].

(** The connection is reset while the body of a 200 response streams. *)
Definition reset_while_streaming : list (Event string) :=
  [EvResponse ok; EvData line1; EvCallback (Some "ECONNRESET") None ""].

(** An options object that carries a [container] key of its own. *)
Definition conflicting_options : LogOptions :=
  <["container" := JString "sidecar"]> (<["follow" := JBool true]> ∅).

(** An options object with a [container] key and nothing else. *)
Definition container_only : LogOptions :=
  <["container" := JString "sidecar"]> ∅.

(** A configuration whose [applyToRequest] rejects. *)
Definition no_credentials : Log string :=
  mkLog (mkKubeConfig (Some (mkCluster "https://k8s.local:6443"))
           (fun _ => inl "no credentials")).


(** Body data before and after headers with status 200. *)
Definition early_data : list (Event string) :=
  [EvData line1; EvResponse ok; EvData line2].

(** ** Properties *)

Section LogProperties.

Context {TransportError ApplyError Json V1Status World : Type}.
Variable JSON_parse : string -> option Json.
Variable deserialize : Json -> string -> option V1Status.

Local Abbreviation state := (St TransportError ApplyError V1Status World).
Local Abbreviation callback := (Callback TransportError World).
Local Abbreviation event := (Event TransportError).
Local Abbreviation run := (deliver JSON_parse deserialize).

Implicit Types (this : Log ApplyError) (s : state) (done : callback)
  (req : Request) (evs transport : list event) (chunks : list Chunk)
  (doneOrOptions : DoneOrOptions TransportError World).

(** *** The transport protocol *)

Lemma body_phase_shape r evs :
  body_phase r evs = true ->
  exists chunks,
    evs = map EvData chunks
    \/ (exists e response body,
          evs = map EvData chunks ++ [EvCallback (Some e) response body])
    \/ (exists r' body,
          statusCode r' = statusCode r
          /\ evs = map EvData chunks ++ [EvCallback None (Some r') body]).
Proof.
  induction evs as [|ev rest IH]; simpl.
  - intros _. exists []. by left.
  - destruct ev as [r0|c|[e|] response body]; try discriminate.
    + intros H. destruct (IH H) as [cs [->|[(e & rs & b & ->)|(r' & b & ? & ->)]]];
        exists (c :: cs); [by left|right; left|right; right]; eauto.
    + destruct rest; [|discriminate]. intros _.
      exists []. right; left. by exists e, response, body.
    + destruct response as [r'|]; [|discriminate].
      destruct rest; [|discriminate]. intros H%Z.eqb_eq.
      exists []. right; right. by exists r', body.
Qed.

Lemma protocol_exchange transport :
  transport_protocol transport = true -> Exchange transport.
Proof.
  destruct transport as [|[r|c|[e|] response body] rest]; simpl;
    try discriminate.
  - constructor.
  - intros H.
    destruct (body_phase_shape _ _ H)
      as [cs [->|[(e & rs & b & ->)|(r' & b & ? & ->)]]]; by constructor.
  - destruct rest; [|discriminate]. constructor.
Qed.

Lemma completes_data chunks :
  completes (TransportError := TransportError) (map EvData chunks) = false.
Proof. by induction chunks. Qed.

Lemma ok_headers_data chunks :
  ok_headers (TransportError := TransportError) (map EvData chunks) = false.
Proof. by induction chunks. Qed.

Lemma data_chunks_data chunks tail :
  data_chunks (TransportError := TransportError) (map EvData chunks ++ tail)
  = chunks ++ data_chunks tail.
Proof. induction chunks; simpl; congruence. Qed.

Lemma callback_among_data (ev last : event) chunks :
  is_callback ev = true ->
  In ev (map EvData chunks ++ [last]) -> ev = last.
Proof.
  intros Hcb [Hin|Hin]%in_app_or.
  - apply in_map_iff in Hin as (c & <- & _). discriminate.
  - by destruct Hin as [->|[]].
Qed.

Lemma callback_not_data (ev : event) chunks :
  is_callback ev = true -> ~ In ev (map EvData chunks).
Proof. intros Hcb (c & <- & _)%in_map_iff. discriminate. Qed.

(** *** Delivery *)

Lemma run_app done req evs1 evs2 s :
  run done req (evs1 ++ evs2) s = run done req evs2 (run done req evs1 s).
Proof. revert s. induction evs1; simpl; auto. Qed.

Lemma run_data done req chunks s :
  run done req (map EvData chunks) s = write_all chunks s.
Proof.
  revert s. induction chunks as [|c cs IH]; intros [p a r pi sk w].
  - unfold write_all; simpl. destruct pi; [|done]. by rewrite app_nil_r.
  - simpl. rewrite IH. unfold on_data, write_all; simpl.
    destruct pi; simpl; [|done]. by rewrite <- app_assoc.
Qed.

Lemma run_exchange_tail done req chunks tail s :
  run done req (map EvData chunks ++ tail) s
  = run done req tail (write_all chunks s).
Proof. by rewrite run_app, run_data. Qed.

(** A settled promise is never changed. *)
Lemma dispatch_settled done req ev s :
  promise s <> Pending ->
  promise (dispatch JSON_parse deserialize done req ev s) = promise s.
Proof.
  intros Hs. destruct s as [p a r pi sk w]; simpl in *.
  destruct ev as [rs|c|[e|] [rs|] body]; simpl; try done.
  - unfold on_response, resolve, pipe; simpl.
    destruct (statusCode rs =? 200); [|done]. by destruct p.
  - unfold on_data; simpl. by destruct pi.
  - unfold reject; simpl. by destruct p.
  - unfold reject; simpl. by destruct p.
  - unfold reject; simpl.
    destruct (statusCode rs =? 200); simpl; [done|].
    destruct (JSON_parse body) as [j|]; [destruct (deserialize j _)|];
      by destruct p.
Qed.

Lemma run_settled done req evs s :
  promise s <> Pending -> promise (run done req evs s) = promise s.
Proof.
  revert s. induction evs as [|ev evs IH]; intros s Hs; [done|].
  simpl. rewrite IH; rewrite dispatch_settled; auto.
Qed.

(** Delivery never touches the records of configuration calls and issued
    requests. *)
Lemma dispatch_frame done req ev s :
  applied (dispatch JSON_parse deserialize done req ev s) = applied s
  /\ requested (dispatch JSON_parse deserialize done req ev s) = requested s.
Proof.
  destruct s as [p a r pi sk w].
  destruct ev as [rs|c|[e|] [rs|] body]; simpl;
    unfold on_response, on_data, resolve, reject, pipe; simpl;
    repeat (match goal with
            | |- context [if ?b then _ else _] => destruct b
            | |- context [match ?x with _ => _ end] => destruct x
            end; simpl); auto.
Qed.

Lemma run_frame done req evs s :
  applied (run done req evs s) = applied s
  /\ requested (run done req evs s) = requested s.
Proof.
  revert s. induction evs as [|ev evs IH]; intros s; [done|].
  simpl. destruct (IH (dispatch JSON_parse deserialize done req ev s)) as [-> ->].
  apply dispatch_frame.
Qed.

(** Without headers of status 200 the request is never piped and the sink
    is left as it was. *)
Lemma run_unpiped done req evs s :
  piped s = false -> ok_headers evs = false ->
  piped (run done req evs s) = false /\ sink (run done req evs s) = sink s.
Proof.
  revert s. induction evs as [|ev evs IH]; intros s Hp Hok; [done|].
  simpl in Hok. apply orb_false_elim in Hok as [Hev Hok]. simpl.
  assert (piped (dispatch JSON_parse deserialize done req ev s) = false
          /\ sink (dispatch JSON_parse deserialize done req ev s) = sink s)
    as [Hp' Hs'].
  { destruct s as [p a r pi sk w]; simpl in *; subst pi.
    destruct ev as [rs|c|[e|] [rs|] body]; simpl in *;
      unfold on_response, on_data, resolve, reject, pipe; simpl;
      rewrite ?Hev; simpl;
      repeat (match goal with
              | |- context [if ?b then _ else _] => destruct b
              | |- context [match ?x with _ => _ end] => destruct x
              end; simpl); auto. }
  destruct (IH _ Hp' Hok) as [-> ->]. auto.
Qed.




(** *** The invocation as a whole *)

(** When the request has been issued, [log] is the delivery of the
    transport's events to the two handlers. *)
Lemma log_issued this namespace podName containerName stream doneOrOptions
    options transport (w : World) ro' :
  requested (log JSON_parse deserialize this namespace podName containerName
               stream doneOrOptions options transport w) = [ro'] ->
  exists cluster ro,
    getCurrentCluster (config this) = Some cluster
    /\ applyToRequest (config this) ro = inr ro'
    /\ log JSON_parse deserialize this namespace podName containerName
         stream doneOrOptions options transport w
       = run (disambiguate doneOrOptions options).1 (mkRequest ro') transport
           (mkSt Pending [ro] [ro'] false stream w).
Proof.
  unfold log. destruct (disambiguate doneOrOptions options) as [done opts].
  destruct (getCurrentCluster (config this)) as [cluster|]; [|discriminate].
  match goal with |- context [applyToRequest _ ?o] => set (ro := o) end.
  destruct (applyToRequest (config this) ro) as [e|ro0] eqn:Happly;
    [discriminate|].
  intros H. rewrite (proj2 (run_frame _ _ _ _)) in H. simpl in H.
  injection H as ->. exists cluster, ro. auto.
Qed.

Ltac handlers :=
  cbv beta iota zeta delta [deliver dispatch request_callback on_response on_data resolve reject
       pipe call set_promise set_world write_all promise applied requested
       piped sink world negb is_fulfilled is_rejected xorb].


(** C2. When the configuration has no current cluster, the call is rejected
    with the error 'No currently active cluster' and nothing else happens:
    [applyToRequest] is not called, no HTTP request is issued, the sink is
    as it was and the callback's world is untouched. *)
Theorem no_cluster_fails_before_io this namespace podName containerName
    stream doneOrOptions options transport (w : World) :
  getCurrentCluster (config this) = None ->
  log JSON_parse deserialize this namespace podName containerName stream
    doneOrOptions options transport w
  = mkSt (Rejected (PlainError "No currently active cluster")) [] [] false
      stream w.
Proof.
  intros H. unfold log. rewrite H.
  by destruct (disambiguate doneOrOptions options).
Qed.

(** C7. The query parameters of the constructed request are the fields of
    the options object the call passes, with their values, except that
    [container] always is the supplied container name, whatever the options
    say.  The options are the sixth argument when the fifth is a function,
    the fifth argument when it is an object, and none when the fifth is
    [undefined]; without options the query is [container] alone. *)
Theorem query_is_options_plus_container this namespace podName containerName
    stream (f : callback) (o : LogOptions) (o6 : option LogOptions) transport
    (w : World) cluster :
  getCurrentCluster (config this) = Some cluster ->
  (exists ro,
     applied (log JSON_parse deserialize this namespace podName containerName
                stream (IsFunction f) o6 transport w) = [ro]
     /\ qs ro !! "container" = Some (JString containerName)
     /\ forall k : string, k <> "container" ->
          qs ro !! k = match o6 with Some o' => o' !! k | None => None end)
  /\ (exists ro,
        applied (log JSON_parse deserialize this namespace podName
                   containerName stream (IsOptions o) o6 transport w) = [ro]
        /\ qs ro !! "container" = Some (JString containerName)
        /\ forall k : string, k <> "container" -> qs ro !! k = o !! k)
  /\ (exists ro,
        applied (log JSON_parse deserialize this namespace podName
                   containerName stream IsUndefined o6 transport w) = [ro]
        /\ qs ro !! "container" = Some (JString containerName)
        /\ forall k : string, k <> "container" -> qs ro !! k = None).
Proof.
  intros H. unfold log. rewrite H. simpl.
  repeat split; eexists; (split; [|split]);
    try (destruct (applyToRequest _ _); [reflexivity|];
         by rewrite (proj1 (run_frame _ _ _ _)));
    try (simpl; unfold query; by rewrite lookup_insert_eq);
    intros k Hk; simpl; unfold query; rewrite lookup_insert_ne by done.
  - by destruct o6.
  - done.
  - done.
Qed.

(** C8. The URI of the constructed request is the server URL of the current
    cluster followed by [/api/v1/namespaces/<namespace>/pods/<podName>/log],
    the two identifiers being inserted as they are. *)
Theorem uri_is_server_plus_path this namespace podName containerName
    stream doneOrOptions options transport (w : World) cluster :
  getCurrentCluster (config this) = Some cluster ->
  exists ro,
    applied (log JSON_parse deserialize this namespace podName containerName
               stream doneOrOptions options transport w) = [ro]
    /\ uri ro = server cluster +:+ "/api/v1/namespaces/" +:+ namespace
                 +:+ "/pods/" +:+ podName +:+ "/log"
    /\ method ro = "GET".
Proof.
  intros H. unfold log. rewrite H.
  destruct (disambiguate doneOrOptions options) as [done opts]; simpl.
  eexists. split; [|split].
  - destruct (applyToRequest _ _); [reflexivity|].
    by rewrite (proj1 (run_frame _ _ _ _)).
  - reflexivity.
  - reflexivity.
Qed.

(** C9. As long as the transport has not announced headers with status 200,
    the sink holds exactly what it held when [log] was called, whatever else
    the transport reports (errors, other statuses, body data). *)
Theorem sink_untouched_without_ok_headers this namespace podName
    containerName stream doneOrOptions options transport (w : World) :
  ok_headers transport = false ->
  sink (log JSON_parse deserialize this namespace podName containerName
          stream doneOrOptions options transport w) = stream.
Proof.
  intros H. unfold log.
  destruct (disambiguate doneOrOptions options) as [done opts].
  destruct (getCurrentCluster (config this)); [|done].
  destruct (applyToRequest _ _); [done|].
  match goal with
  | |- sink (deliver _ _ ?d ?q _ ?s0) = _ =>
      by destruct (run_unpiped d q transport s0 eq_refl H) as [_ ->]
  end.
Qed.





(** C3. When the request has been issued and the transport announces headers
    with status 200, the promise is fulfilled with the request handle, the
    request is piped to the sink, and the sink receives the body chunks that
    follow, in order and unchanged; nothing that follows rejects the
    promise. *)
Theorem ok_headers_start_streaming this namespace podName containerName
    stream doneOrOptions options r rest (w : World) ro' :
  requested (log JSON_parse deserialize this namespace podName containerName
               stream doneOrOptions options (EvResponse r :: rest) w)
  = [ro'] ->
  transport_protocol (EvResponse r :: rest) = true ->
  statusCode r = 200 ->
  let s := log JSON_parse deserialize this namespace podName containerName
             stream doneOrOptions options (EvResponse r :: rest) w in
  promise s = Fulfilled (mkRequest ro')
  /\ piped s = true
  /\ sink s = stream ++ data_chunks rest.
Proof.
  intros Hq Hp Hr. cbv zeta.
  destruct (log_issued _ _ _ _ _ _ _ _ _ _ Hq) as (cl & ro & _ & _ & ->).
  set (done := (disambiguate doneOrOptions options).1).
  simpl in Hp.
  destruct (body_phase_shape _ _ Hp)
    as [cs [->|[(e & rs & b & ->)|(r' & b & Hr' & ->)]]].
  - rewrite <- (app_nil_r (map EvData cs)).
    simpl. rewrite run_exchange_tail, data_chunks_data. handlers.
    rewrite Hr. handlers. simpl. by rewrite app_nil_r.
  - simpl. rewrite run_exchange_tail, data_chunks_data. handlers.
    rewrite Hr. handlers. simpl. by rewrite app_nil_r.
  - simpl. rewrite run_exchange_tail, data_chunks_data. handlers.
    rewrite Hr', Hr. handlers. simpl. by rewrite app_nil_r.
Qed.

(** C4. When the request has been issued and the exchange completes without
    a transport error with a status other than 200, the promise is rejected
    with an [HttpError] that carries the response, its status code and a
    body: the deserialized status when [JSON.parse] and [deserialize] both
    succeed, the raw body text otherwise. *)
Theorem api_failure_rejects this namespace podName containerName
    stream doneOrOptions options transport (w : World) ro' r body :
  requested (log JSON_parse deserialize this namespace podName containerName
               stream doneOrOptions options transport w) = [ro'] ->
  transport_protocol transport = true ->
  In (EvCallback None (Some r) body) transport ->
  statusCode r <> 200 ->
  promise (log JSON_parse deserialize this namespace podName containerName
             stream doneOrOptions options transport w)
  = Rejected (ApiFailure (mkHttpError r
      match JSON_parse body with
      | Some json =>
          match deserialize json "V1Status" with
          | Some status => Decoded status
          | None => Raw body
          end
      | None => Raw body
      end
      (statusCode r))).
Proof.
  intros Hq Hp Hin Hr.
  destruct (log_issued _ _ _ _ _ _ _ _ _ _ Hq) as (cl & ro & _ & _ & ->).
  set (done := (disambiguate doneOrOptions options).1).
  apply Z.eqb_neq in Hr.
  destruct (protocol_exchange _ Hp) as [|e rs b|r0 cs|r0 cs e rs b|r0 cs r' b Hr'].
  - destruct Hin.
  - by destruct Hin as [?|[]].
  - destruct Hin as [?|Hin]; [done|]. by apply callback_not_data in Hin.
  - destruct Hin as [?|Hin]; [done|].
    by apply callback_among_data in Hin.
  - destruct Hin as [?|Hin]; [done|].
    apply callback_among_data in Hin; [|done]. injection Hin as <- <-.
    simpl. rewrite run_exchange_tail. handlers.
    rewrite <- Hr', Hr. handlers.
    destruct (JSON_parse body) as [j|]; [destruct (deserialize j _)|]; done.
Qed.

(** C5 (amended). When the request has been issued and the transport
    reports an error, the promise is rejected with that error, unless
    headers with status 200 came first: then the promise stays fulfilled
    with the request handle. *)
Theorem transport_error_rejects_unless_streaming this namespace podName
    containerName stream doneOrOptions options transport (w : World) ro'
    e response body :
  requested (log JSON_parse deserialize this namespace podName containerName
               stream doneOrOptions options transport w) = [ro'] ->
  transport_protocol transport = true ->
  In (EvCallback (Some e) response body) transport ->
  promise (log JSON_parse deserialize this namespace podName containerName
             stream doneOrOptions options transport w)
  = if ok_headers transport then Fulfilled (mkRequest ro')
    else Rejected (TransportFailure e).
Proof.
  intros Hq Hp Hin.
  destruct (log_issued _ _ _ _ _ _ _ _ _ _ Hq) as (cl & ro & _ & _ & ->).
  set (done := (disambiguate doneOrOptions options).1).
  destruct (protocol_exchange _ Hp) as [|e0 rs b|r0 cs|r0 cs e0 rs b|r0 cs r' b Hr'].
  - destruct Hin.
  - destruct Hin as [[= <- <- <-]|[]]. done.
  - destruct Hin as [?|Hin]; [done|]. by apply callback_not_data in Hin.
  - destruct Hin as [?|Hin]; [done|].
    apply callback_among_data in Hin; [|done]. injection Hin as <- <- <-.
    simpl. rewrite run_exchange_tail. handlers.
    destruct (statusCode r0 =? 200); handlers; [done|]. simpl.
    unfold ok_headers. rewrite existsb_app.
    fold (ok_headers (TransportError := TransportError) (map EvData cs)).
    by rewrite ok_headers_data.
  - destruct Hin as [?|Hin]; [done|].
    by apply callback_among_data in Hin.
Qed.

(** C6 (amended). When a callback is given, the request has been issued and
    the exchange is over, the callback has been applied exactly once to the
    world it started from: to the transport error if there was one, to
    [null] if the status was 200, to the response body otherwise. *)
Theorem callback_fires_once_on_completion this namespace podName
    containerName stream (f : callback) options transport (w : World) ro'
    error response body :
  requested (log JSON_parse deserialize this namespace podName containerName
               stream (IsFunction f) options transport w) = [ro'] ->
  transport_protocol transport = true ->
  In (EvCallback error response body) transport ->
  match error, response with
  | Some e, _ =>
      world (log JSON_parse deserialize this namespace podName containerName
               stream (IsFunction f) options transport w)
      = f (DoneError e) w
  | None, Some r =>
      world (log JSON_parse deserialize this namespace podName containerName
               stream (IsFunction f) options transport w)
      = f (if statusCode r =? 200 then DoneNull else DoneBody body) w
  | None, None => False
  end.
Proof.
  intros Hq Hp Hin.
  destruct (log_issued _ _ _ _ _ _ _ _ _ _ Hq) as (cl & ro & _ & _ & ->).
  simpl.
  destruct (protocol_exchange _ Hp) as [|e0 rs b|r0 cs|r0 cs e0 rs b|r0 cs r' b Hr'].
  - destruct Hin.
  - destruct Hin as [[= <- <- <-]|[]]. done.
  - destruct Hin as [?|Hin]; [done|]. by apply callback_not_data in Hin.
  - destruct Hin as [?|Hin]; [done|].
    apply callback_among_data in Hin; [|done]. injection Hin as -> -> ->.
    simpl. rewrite run_exchange_tail. handlers.
    destruct (statusCode r0 =? 200); done.
  - destruct Hin as [?|Hin]; [done|].
    apply callback_among_data in Hin; [|done]. injection Hin as -> -> ->.
    simpl. rewrite run_exchange_tail. handlers.
    rewrite <- Hr'.
    destruct (statusCode r' =? 200); handlers; [done|].
    destruct (JSON_parse b) as [j|]; [destruct (deserialize j _)|]; done.
Qed.

(** *** Further properties of [log] *)

Lemma append_assoc (a b c : string) : (a +:+ b) +:+ c = a +:+ (b +:+ c).
Proof.
  induction a as [|x a IH]; [done|].
  change (String x ((a +:+ b) +:+ c) = String x (a +:+ (b +:+ c))).
  by rewrite IH.
Qed.

Lemma run_no_callback_world done req evs s :
  completes evs = false -> world (run done req evs s) = world s.
Proof.
  revert s. induction evs as [|ev evs IH]; intros s H; [done|].
  simpl in H. apply orb_false_elim in H as [Hev H]. simpl.
  rewrite (IH _ H). destruct s as [p a r pi sk w].
  destruct ev as [rs|c|e rs body]; [| |discriminate]; simpl;
    unfold on_response, on_data, resolve, pipe; simpl;
    repeat (match goal with
            | |- context [if ?b then _ else _] => destruct b
            | |- context [match ?x with _ => _ end] => destruct x
            end; simpl); auto.
Qed.

Lemma dispatch_piped done req ev s :
  piped s = true ->
  piped (dispatch JSON_parse deserialize done req ev s) = true.
Proof.
  intros H. destruct s as [p a r pi sk w]; simpl in *; subst pi.
  destruct ev as [rs|c|[e|] [rs|] body]; simpl;
    unfold on_response, on_data, resolve, reject, pipe; simpl;
    repeat (match goal with
            | |- context [if ?b then _ else _] => destruct b
            | |- context [match ?x with _ => _ end] => destruct x
            end; simpl); auto.
Qed.

Lemma run_piped done req evs s :
  piped s = true ->
  piped (run done req evs s) = true
  /\ sink (run done req evs s) = sink s ++ data_chunks evs.
Proof.
  revert s. induction evs as [|ev evs IH]; intros s H.
  - simpl. by rewrite app_nil_r.
  - simpl. destruct (IH _ (dispatch_piped done req ev s H)) as [-> ->].
    split; [done|].
    destruct s as [p a r pi sk w]; simpl in *; subst pi.
    destruct ev as [rs|c|[e|] [rs|] body]; simpl;
      unfold on_response, on_data, resolve, reject, pipe; simpl;
      repeat (match goal with
              | |- context [if ?b then _ else _] => destruct b
              | |- context [match ?x with _ => _ end] => destruct x
              end; simpl); auto.
    by rewrite <- app_assoc.
Qed.

Lemma run_sink done req evs s :
  piped s = false ->
  sink (run done req evs s) = sink s ++ data_chunks (after_ok_headers evs).
Proof.
  revert s. induction evs as [|ev evs IH]; intros s H.
  - simpl. by rewrite app_nil_r.
  - simpl. destruct (is_ok_response ev) eqn:Hev.
    + destruct ev as [rs| |]; try discriminate. simpl in Hev.
      simpl. unfold on_response. rewrite Hev.
      assert (piped (resolve req (pipe s)) = true
              /\ sink (resolve req (pipe s)) = sink s) as [Hp Hs].
      { destruct s as [p a r pi sk w]. unfold resolve, pipe; simpl.
        by destruct p. }
      destruct (run_piped done req evs _ Hp) as [_ ->]. by rewrite Hs.
    + assert (piped (dispatch JSON_parse deserialize done req ev s) = false
              /\ sink (dispatch JSON_parse deserialize done req ev s) = sink s)
        as [Hp Hs].
      { destruct s as [p a r pi sk w]; simpl in *; subst pi.
        destruct ev as [rs|c|[e|] [rs|] body]; simpl in *;
          unfold on_response, on_data, resolve, reject, pipe; simpl;
          rewrite ?Hev; simpl;
          repeat (match goal with
                  | |- context [if ?b then _ else _] => destruct b
                  | |- context [match ?x with _ => _ end] => destruct x
                  end; simpl); auto. }
      by rewrite (IH _ Hp), Hs.
Qed.

Lemma query_without_container (o1 o2 : option LogOptions) containerName :
  delete "container" (default ∅ o1) = delete "container" (default ∅ o2) ->
  query o1 containerName = query o2 containerName.
Proof.
  intros H. unfold query.
  rewrite <- (insert_delete_eq (default ∅ o1)),
          <- (insert_delete_eq (default ∅ o2)).
  by rewrite H.
Qed.

(** X1. When [applyToRequest] rejects, the promise is rejected with that
    error after one call of [applyToRequest]: no request is issued, the sink
    and the callback are left alone, whatever the transport would do. *)
Theorem apply_rejection_stops_before_request this namespace podName
    containerName stream doneOrOptions options transport (w : World) ro e :
  applied (log JSON_parse deserialize this namespace podName containerName
             stream doneOrOptions options transport w) = [ro] ->
  applyToRequest (config this) ro = inl e ->
  log JSON_parse deserialize this namespace podName containerName stream
    doneOrOptions options transport w
  = mkSt (Rejected (ApplyRejected e)) [ro] [] false stream w.
Proof.
  unfold log. destruct (disambiguate doneOrOptions options) as [done opts].
  destruct (getCurrentCluster (config this)) as [cl|]; [|discriminate].
  destruct (applyToRequest _ _) as [ae|ro0] eqn:Happly.
  - intros [= <-] He. rewrite Happly in He. by injection He as ->.
  - rewrite (proj1 (run_frame _ _ _ _)). intros [= <-] He.
    rewrite Happly in He. discriminate.
Qed.

(** X2. A settled promise stays as it is: whatever the transport delivers
    after the promise was fulfilled or rejected, protocol or not, the
    outcome is the one that came first. *)
Theorem settlement_is_final this namespace podName containerName stream
    doneOrOptions options transport later (w : World) :
  promise (log JSON_parse deserialize this namespace podName containerName
             stream doneOrOptions options transport w) <> Pending ->
  promise (log JSON_parse deserialize this namespace podName containerName
             stream doneOrOptions options (transport ++ later) w)
  = promise (log JSON_parse deserialize this namespace podName containerName
               stream doneOrOptions options transport w).
Proof.
  unfold log. destruct (disambiguate doneOrOptions options) as [done opts].
  destruct (getCurrentCluster (config this)) as [cl|]; [|done].
  destruct (applyToRequest _ _) as [ae|ro0]; [done|].
  intros H. rewrite run_app. by apply run_settled.
Qed.

(** X4. The callback is never invoked before the transport invokes the
    completion callback: headers and body data alone leave its world as it
    was. *)
Theorem callback_silent_before_completion this namespace podName
    containerName stream doneOrOptions options transport (w : World) :
  completes transport = false ->
  world (log JSON_parse deserialize this namespace podName containerName
           stream doneOrOptions options transport w) = w.
Proof.
  intros H. unfold log.
  destruct (disambiguate doneOrOptions options) as [done opts].
  destruct (getCurrentCluster (config this)) as [cl|]; [|done].
  destruct (applyToRequest _ _) as [ae|ro0]; [done|].
  by rewrite run_no_callback_world.
Qed.

(** X6. Once the request is issued, the sink holds what it held before
    followed by exactly the body chunks delivered after the first headers
    with status 200, for any sequence of transport events. *)
Theorem sink_is_data_after_ok_headers this namespace podName containerName
    stream doneOrOptions options transport (w : World) ro' :
  requested (log JSON_parse deserialize this namespace podName containerName
               stream doneOrOptions options transport w) = [ro'] ->
  sink (log JSON_parse deserialize this namespace podName containerName
          stream doneOrOptions options transport w)
  = stream ++ data_chunks (after_ok_headers transport).
Proof.
  intros Hq.
  destruct (log_issued _ _ _ _ _ _ _ _ _ _ Hq) as (cl & ro & _ & _ & ->).
  by rewrite run_sink.
Qed.

(** X7. [applyToRequest] is called at most once and at most one request is
    issued; a request that is issued carries the descriptor that
    [applyToRequest] returned for the one [log] built. *)
Theorem at_most_one_request this namespace podName containerName stream
    doneOrOptions options transport (w : World) :
  (length (applied (log JSON_parse deserialize this namespace podName
                      containerName stream doneOrOptions options transport
                      w)) <= 1)%nat
  /\ (length (requested (log JSON_parse deserialize this namespace podName
                           containerName stream doneOrOptions options
                           transport w)) <= 1)%nat
  /\ forall ro',
       In ro' (requested (log JSON_parse deserialize this namespace podName
                            containerName stream doneOrOptions options
                            transport w)) ->
       exists ro,
         applied (log JSON_parse deserialize this namespace podName
                    containerName stream doneOrOptions options transport w)
         = [ro]
         /\ applyToRequest (config this) ro = inr ro'.
Proof.
  unfold log. destruct (disambiguate doneOrOptions options) as [done opts].
  destruct (getCurrentCluster (config this)) as [cl|];
    [|simpl; repeat split; (lia || by intros ? [])].
  destruct (applyToRequest _ _) as [ae|ro0] eqn:Happly;
    [simpl; repeat split; (lia || by intros ? [])|].
  match goal with
  | |- context [deliver _ _ ?d ?q ?t ?s0] =>
      destruct (run_frame d q t s0) as [-> ->]
  end.
  simpl. repeat split; try lia.
  intros ro' [<-|[]]. eauto.
Qed.

(** X8. The identifiers are not escaped: a namespace and a pod name that
    spell the same path when joined by [/pods/] give the same invocation,
    request included. *)
Theorem unescaped_identifiers_collide this namespace middle podName
    containerName stream doneOrOptions options transport (w : World) :
  log JSON_parse deserialize this (namespace +:+ "/pods/" +:+ middle)
    podName containerName stream doneOrOptions options transport w
  = log JSON_parse deserialize this namespace
      (middle +:+ "/pods/" +:+ podName) containerName stream doneOrOptions
      options transport w.
Proof.
  assert (log_path (namespace +:+ "/pods/" +:+ middle) podName
          = log_path namespace (middle +:+ "/pods/" +:+ podName)) as Hpath.
  { unfold log_path. by rewrite !append_assoc. }
  unfold log. by rewrite Hpath.
Qed.

(** X9. A [container] key in the options has no effect at all: two calls
    with the same callback whose options agree on every other key are the
    same invocation.  In particular no options, the empty object and an
    object with a [container] key alone are interchangeable. *)
Theorem container_key_in_options_is_irrelevant this namespace podName
    containerName stream doneOrOptions1 options1 doneOrOptions2 options2
    transport (w : World) :
  (disambiguate doneOrOptions1 options1).1
  = (disambiguate doneOrOptions2 options2).1 ->
  delete "container" (default ∅ (disambiguate doneOrOptions1 options1).2)
  = delete "container" (default ∅ (disambiguate doneOrOptions2 options2).2) ->
  log JSON_parse deserialize this namespace podName containerName stream
    doneOrOptions1 options1 transport w
  = log JSON_parse deserialize this namespace podName containerName stream
      doneOrOptions2 options2 transport w.
Proof.
  unfold log.
  destruct (disambiguate doneOrOptions1 options1) as [done1 opts1].
  destruct (disambiguate doneOrOptions2 options2) as [done2 opts2].
  simpl. intros -> H.
  by rewrite (query_without_container opts1 opts2 containerName H).
Qed.



(** X5. Under the transport's protocol a callback that was passed is never
    invoked twice: its world is the one it started from, or the result of
    one application. *)
Theorem callback_at_most_once this namespace podName containerName stream
    (f : callback) options transport (w : World) :
  transport_protocol transport = true ->
  world (log JSON_parse deserialize this namespace podName containerName
           stream (IsFunction f) options transport w) = w
  \/ exists a,
       world (log JSON_parse deserialize this namespace podName containerName
                stream (IsFunction f) options transport w) = f a w.
Proof.
  intros Hp. unfold log. simpl.
  destruct (getCurrentCluster (config this)) as [cl|]; [|by left].
  destruct (applyToRequest _ _) as [ae|ro0]; [by left|].
  destruct (protocol_exchange _ Hp) as [|e rs b|r cs|r cs e rs b|r cs r' b Hr].
  - by left.
  - right. by exists (DoneError e).
  - left. simpl. rewrite run_no_callback_world; [|apply completes_data].
    handlers. by destruct (statusCode r =? 200).
  - right. exists (DoneError e). simpl. rewrite run_exchange_tail. handlers.
    by destruct (statusCode r =? 200).
  - right. simpl. rewrite run_exchange_tail. handlers. rewrite Hr.
    destruct (statusCode r =? 200); handlers; [by exists DoneNull|].
    exists (DoneBody b).
    destruct (JSON_parse b) as [j|]; [destruct (deserialize j _)|]; done.
Qed.

(** The event that settles a pending promise accounts for the outcome. *)
Lemma dispatch_outcome_sound done req ev s :
  promise s = Pending ->
  match promise (dispatch JSON_parse deserialize done req ev s) with
  | Pending => True
  | Fulfilled q =>
      q = req /\ is_ok_response ev = true
      /\ piped (dispatch JSON_parse deserialize done req ev s) = true
  | Rejected (TransportFailure e) =>
      exists response body, ev = EvCallback (Some e) response body
  | Rejected (ApiFailure h) =>
      he_statusCode h = statusCode (he_response h)
      /\ he_statusCode h <> 200
      /\ exists body,
           ev = EvCallback None (Some (he_response h)) body
           /\ (he_body h = Raw body
               \/ exists json status,
                    JSON_parse body = Some json
                    /\ deserialize json "V1Status" = Some status
                    /\ he_body h = Decoded status)
  | Rejected _ => False
  end.
Proof.
  intros Hs. destruct s as [p a r pi sk w]; simpl in Hs; subst p.
  destruct ev as [rs|c|[e|] [rs|] body]; handlers; try done.
  - destruct (statusCode rs =? 200) eqn:E; handlers; [|done].
    simpl. by rewrite E.
  - by destruct pi.
  - eauto.
  - eauto.
  - destruct (statusCode rs =? 200) eqn:E; handlers; [done|].
    apply Z.eqb_neq in E.
    destruct (JSON_parse body) as [j|] eqn:Hj;
      [destruct (deserialize j _) as [d|] eqn:Hd|]; handlers; simpl;
      (split; [done|]); (split; [done|]); exists body;
      (split; [done|]); eauto 10.
Qed.

Lemma run_outcome_sound done req evs s :
  promise s = Pending ->
  match promise (run done req evs s) with
  | Pending => True
  | Fulfilled q =>
      q = req /\ ok_headers evs = true /\ piped (run done req evs s) = true
  | Rejected (TransportFailure e) =>
      exists response body, In (EvCallback (Some e) response body) evs
  | Rejected (ApiFailure h) =>
      he_statusCode h = statusCode (he_response h)
      /\ he_statusCode h <> 200
      /\ exists body,
           In (EvCallback None (Some (he_response h)) body) evs
           /\ (he_body h = Raw body
               \/ exists json status,
                    JSON_parse body = Some json
                    /\ deserialize json "V1Status" = Some status
                    /\ he_body h = Decoded status)
  | Rejected _ => False
  end.
Proof.
  revert s. induction evs as [|ev evs IH]; intros s Hs.
  - simpl. by rewrite Hs.
  - simpl deliver.
    pose proof (dispatch_outcome_sound done req ev s Hs) as Hev.
    destruct (promise (dispatch JSON_parse deserialize done req ev s))
      as [|q|reason] eqn:Hd.
    + specialize (IH _ Hd).
      destruct (promise (run done req evs _)) as [|q|[m|ae|e|h]]; try done.
      * destruct IH as (-> & Hok & Hpi). repeat split; [|done].
        simpl. rewrite Hok. apply orb_true_r.
      * destruct IH as (rs & b & Hin). exists rs, b. by right.
      * destruct IH as (H1 & H2 & b & Hin & Hb).
        repeat split; [done..|]. exists b. split; [by right|done].
    + rewrite run_settled by (rewrite Hd; discriminate). rewrite Hd.
      destruct Hev as (-> & Hok & Hpi). repeat split.
      * simpl. by rewrite Hok.
      * by destruct (run_piped done req evs _ Hpi).
    + rewrite run_settled by (rewrite Hd; discriminate). rewrite Hd.
      destruct reason as [m|ae|e|h]; try done.
      * destruct Hev as (rs & b & ->). exists rs, b. by left.
      * destruct Hev as (H1 & H2 & b & -> & Hb).
        repeat split; [done..|]. exists b. split; [by left|done].
Qed.

(** X10. The promise is fulfilled only with the handle of the request that
    was issued, and only if the transport announced headers with status 200
    and the request was piped to the sink, for any sequence of transport
    events. *)
Theorem fulfilled_only_after_ok_headers this namespace podName containerName
    stream doneOrOptions options transport (w : World) req :
  promise (log JSON_parse deserialize this namespace podName containerName
             stream doneOrOptions options transport w) = Fulfilled req ->
  (exists ro',
     req = mkRequest ro'
     /\ requested (log JSON_parse deserialize this namespace podName
                     containerName stream doneOrOptions options transport w)
        = [ro'])
  /\ ok_headers transport = true
  /\ piped (log JSON_parse deserialize this namespace podName containerName
              stream doneOrOptions options transport w) = true.
Proof.
  unfold log. destruct (disambiguate doneOrOptions options) as [done opts].
  destruct (getCurrentCluster (config this)) as [cl|]; [|discriminate].
  destruct (applyToRequest _ _) as [ae|ro0]; [discriminate|].
  match goal with
  | |- context [deliver _ _ ?d ?q ?t ?s0] =>
      pose proof (run_outcome_sound d q t s0 eq_refl) as Hsound;
      rewrite (proj2 (run_frame d q t s0))
  end.
  intros H. rewrite H in Hsound. destruct Hsound as (-> & Hok & Hpi).
  eauto.
Qed.

(** X11. Every rejection is accounted for, for any sequence of transport
    events.  The plain error is the one for a missing cluster; an error of
    [applyToRequest] means it was called and no request was issued; a
    transport error was passed to the completion callback; an [HttpError]
    carries the status code of its response, which is not 200, and that
    response was passed to the completion callback with the body the error
    holds raw or deserialized. *)
Theorem rejections_are_accounted_for this namespace podName containerName
    stream doneOrOptions options transport (w : World) reason :
  promise (log JSON_parse deserialize this namespace podName containerName
             stream doneOrOptions options transport w) = Rejected reason ->
  match reason with
  | PlainError message =>
      message = "No currently active cluster"
      /\ getCurrentCluster (config this) = None
  | ApplyRejected e =>
      requested (log JSON_parse deserialize this namespace podName
                   containerName stream doneOrOptions options transport w)
      = []
      /\ exists ro,
           applied (log JSON_parse deserialize this namespace podName
                      containerName stream doneOrOptions options transport w)
           = [ro]
           /\ applyToRequest (config this) ro = inl e
  | TransportFailure e =>
      exists response body, In (EvCallback (Some e) response body) transport
  | ApiFailure h =>
      he_statusCode h = statusCode (he_response h)
      /\ he_statusCode h <> 200
      /\ exists body,
           In (EvCallback None (Some (he_response h)) body) transport
           /\ (he_body h = Raw body
               \/ exists json status,
                    JSON_parse body = Some json
                    /\ deserialize json "V1Status" = Some status
                    /\ he_body h = Decoded status)
  end.
Proof.
  unfold log. destruct (disambiguate doneOrOptions options) as [done opts].
  destruct (getCurrentCluster (config this)) as [cl|];
    [|by intros [= <-]].
  destruct (applyToRequest _ _) as [ae|ro0] eqn:Happly.
  - intros [= <-]. simpl. eauto.
  - match goal with
    | |- context [deliver _ _ ?d ?q ?t ?s0] =>
        pose proof (run_outcome_sound d q t s0 eq_refl) as Hsound
    end.
    intros H. rewrite H in Hsound. by destruct reason.
Qed.

End LogProperties.

(** ** The properties at concrete invocations *)



Lemma no_cluster_fails_before_io_witness :
  getCurrentCluster (config no_cluster) = None
  /\ log parse_braced decode_any no_cluster "default" "web-0" "app" [line1]
       (IsFunction recorder) None streamed []
     = mkSt (Rejected (PlainError "No currently active cluster")) [] []
         false [line1] [].
Proof.
  split; [reflexivity|].
  apply (no_cluster_fails_before_io parse_braced decode_any). reflexivity.
Defined.

Lemma ok_headers_start_streaming_witness :
  requested (log parse_braced decode_any local_cluster "default" "web-0"
               "app" [] (IsFunction recorder) None streamed [])
  = [local_request]
  /\ transport_protocol streamed = true
  /\ statusCode ok = 200
  /\ let s := log parse_braced decode_any local_cluster "default" "web-0"
                "app" [] (IsFunction recorder) None streamed [] in
     promise s = Fulfilled (mkRequest local_request)
     /\ piped s = true
     /\ sink s = [] ++ [line1; line2].
Proof.
  split; [reflexivity|]. split; [reflexivity|]. split; [reflexivity|].
  apply (ok_headers_start_streaming parse_braced decode_any local_cluster
           "default" "web-0" "app" [] (IsFunction recorder) None ok
           [EvData line1; EvData line2; EvCallback None (Some ok) ""] []
           local_request); reflexivity.
Defined.

Lemma api_failure_rejects_witness :
  requested (log parse_braced decode_any local_cluster "default" "web-0"
               "app" [] (IsFunction recorder) None missing [])
  = [local_request]
  /\ transport_protocol missing = true
  /\ In (EvCallback None (Some not_found) status_body) missing
  /\ statusCode not_found <> 200
  /\ promise (log parse_braced decode_any local_cluster "default" "web-0"
                "app" [] (IsFunction recorder) None missing [])
     = Rejected (ApiFailure (mkHttpError not_found (Decoded status_body) 404)).
Proof.
  split; [reflexivity|]. split; [reflexivity|].
  split; [right; left; reflexivity|]. split; [discriminate|].
  apply (api_failure_rejects parse_braced decode_any local_cluster "default"
           "web-0" "app" [] (IsFunction recorder) None missing []
           local_request not_found status_body);
    [reflexivity|reflexivity|right; left; reflexivity|discriminate].
Defined.

Lemma transport_error_rejects_unless_streaming_witness :
  requested (log parse_braced decode_any local_cluster "default" "web-0"
               "app" [] (IsFunction recorder) None refused [])
  = [local_request]
  /\ transport_protocol refused = true
  /\ In (EvCallback (Some "ECONNREFUSED") None "") refused
  /\ promise (log parse_braced decode_any local_cluster "default" "web-0"
                "app" [] (IsFunction recorder) None refused [])
     = Rejected (TransportFailure "ECONNREFUSED").
Proof.
  split; [reflexivity|]. split; [reflexivity|]. split; [left; reflexivity|].
  apply (transport_error_rejects_unless_streaming parse_braced decode_any
           local_cluster "default" "web-0" "app" [] (IsFunction recorder)
           None refused [] local_request "ECONNREFUSED" None "");
    [reflexivity|reflexivity|left; reflexivity].
Defined.

(** C5 as stated fails: the connection is reset after headers with status
    200, and the promise is fulfilled, not rejected with the error. *)
Lemma transport_error_after_ok_headers_does_not_reject :
  requested (log parse_braced decode_any local_cluster "default" "web-0"
               "app" [] (IsFunction recorder) None reset_while_streaming [])
  = [local_request]
  /\ transport_protocol reset_while_streaming = true
  /\ In (EvCallback (Some "ECONNRESET") None "") reset_while_streaming
  /\ promise (log parse_braced decode_any local_cluster "default" "web-0"
                "app" [] (IsFunction recorder) None reset_while_streaming [])
     = Fulfilled (mkRequest local_request)
  /\ promise (log parse_braced decode_any local_cluster "default" "web-0"
                "app" [] (IsFunction recorder) None reset_while_streaming [])
     <> Rejected (TransportFailure "ECONNRESET").
Proof.
  split; [reflexivity|]. split; [reflexivity|].
  split; [right; right; left; reflexivity|].
  split; [reflexivity|discriminate].
Qed.

Lemma callback_fires_once_on_completion_witness :
  requested (log parse_braced decode_any local_cluster "default" "web-0"
               "app" [] (IsFunction recorder) None missing [])
  = [local_request]
  /\ transport_protocol missing = true
  /\ In (EvCallback None (Some not_found) status_body) missing
  /\ world (log parse_braced decode_any local_cluster "default" "web-0"
              "app" [] (IsFunction recorder) None missing [])
     = [DoneBody status_body].
Proof.
  split; [reflexivity|]. split; [reflexivity|].
  split; [right; left; reflexivity|].
  apply (callback_fires_once_on_completion parse_braced decode_any
           local_cluster "default" "web-0" "app" [] recorder None missing []
           local_request None (Some not_found) status_body);
    [reflexivity|reflexivity|right; left; reflexivity].
Defined.

(** C6 as stated fails: without a current cluster the call is over (the
    promise is rejected) and the callback that was passed has not been
    invoked at all. *)
Lemma callback_not_invoked_without_cluster :
  promise (log parse_braced decode_any no_cluster "default" "web-0" "app" []
             (IsFunction recorder) None streamed [])
  = Rejected (PlainError "No currently active cluster")
  /\ world (log parse_braced decode_any no_cluster "default" "web-0" "app" []
              (IsFunction recorder) None streamed []) = []
  /\ ~ exists a,
        world (log parse_braced decode_any no_cluster "default" "web-0" "app"
                 [] (IsFunction recorder) None streamed [])
        = recorder a [].
Proof.
  split; [reflexivity|]. split; [reflexivity|].
  intros [a H]. discriminate H.
Qed.

Lemma query_is_options_plus_container_witness :
  getCurrentCluster (config local_cluster)
  = Some (mkCluster "https://k8s.local:6443")
  /\ (exists ro,
        applied (log parse_braced decode_any local_cluster "default" "web-0"
                   "app" [] (IsFunction recorder)
                   (Some conflicting_options) streamed []) = [ro]
        /\ qs ro !! "container" = Some (JString "app")
        /\ forall k : string, k <> "container" ->
             qs ro !! k = conflicting_options !! k)
  /\ (exists ro,
        applied (log parse_braced decode_any local_cluster "default" "web-0"
                   "app" [] (IsOptions conflicting_options)
                   (Some container_only) streamed
                   ([] : list (DoneArg string))) = [ro]
        /\ qs ro !! "container" = Some (JString "app")
        /\ forall k : string, k <> "container" ->
             qs ro !! k = conflicting_options !! k)
  /\ (exists ro,
        applied (log parse_braced decode_any local_cluster "default" "web-0"
                   "app" [] IsUndefined (Some conflicting_options) streamed
                   ([] : list (DoneArg string))) = [ro]
        /\ qs ro !! "container" = Some (JString "app")
        /\ forall k : string, k <> "container" -> qs ro !! k = None).
Proof.
  split; [reflexivity|].
  split; [|split].
  - apply (query_is_options_plus_container parse_braced decode_any
             local_cluster "default" "web-0" "app" [] recorder
             conflicting_options (Some conflicting_options) streamed []
             (mkCluster "https://k8s.local:6443") eq_refl).
  - apply (query_is_options_plus_container parse_braced decode_any
             local_cluster "default" "web-0" "app" [] recorder
             conflicting_options (Some container_only) streamed []
             (mkCluster "https://k8s.local:6443") eq_refl).
  - apply (query_is_options_plus_container parse_braced decode_any
             local_cluster "default" "web-0" "app" [] recorder
             conflicting_options (Some conflicting_options) streamed []
             (mkCluster "https://k8s.local:6443") eq_refl).
Defined.


Lemma uri_is_server_plus_path_witness :
  getCurrentCluster (config local_cluster)
  = Some (mkCluster "https://k8s.local:6443")
  /\ exists ro,
       applied (log parse_braced decode_any local_cluster "default" "web-0"
                  "app" [] (IsOptions conflicting_options) None streamed tt)
       = [ro]
       /\ uri ro = "https://k8s.local:6443/api/v1/namespaces/default/pods/web-0/log"
       /\ method ro = "GET".
Proof.
  split; [reflexivity|].
  apply (uri_is_server_plus_path parse_braced decode_any local_cluster
           "default" "web-0" "app" [] _ None streamed tt
           (mkCluster "https://k8s.local:6443")).
  reflexivity.
Defined.

Lemma sink_untouched_without_ok_headers_witness :
  ok_headers missing = false
  /\ sink (log parse_braced decode_any local_cluster "default" "web-0" "app"
             [line1] (IsFunction recorder) None missing []) = [line1].
Proof.
  split; [reflexivity|].
  apply (sink_untouched_without_ok_headers parse_braced decode_any).
  reflexivity.
Defined.

(** A 500 response whose body is not JSON: the error carries the raw text,
    and the callback receives it too. *)
Example internal_error_keeps_raw_body :
  let s := log parse_braced decode_any local_cluster "default" "web-0" "app"
             [] (IsFunction recorder) None
             [EvResponse (mkResponse 500 []);
              EvCallback None (Some (mkResponse 500 [])) "internal error"]
             [] in
  promise s
  = Rejected (ApiFailure (mkHttpError (mkResponse 500 [])
                            (Raw "internal error") 500))
  /\ sink s = []
  /\ world s = [DoneBody "internal error"].
Proof. repeat split. Qed.

(** A 200 exchange: the sink receives the two chunks, the callback [null]. *)
Example streamed_exchange :
  let s := log parse_braced decode_any local_cluster "default" "web-0" "app"
             [] (IsFunction recorder) None streamed [] in
  promise s = Fulfilled (mkRequest local_request)
  /\ sink s = [line1; line2]
  /\ world s = [DoneNull].
Proof. repeat split. Qed.

Lemma apply_rejection_stops_before_request_witness :
  applied (log parse_braced decode_any no_credentials "default" "web-0" "app"
             [line1] (IsFunction recorder) None streamed [])
  = [local_request]
  /\ applyToRequest (config no_credentials) local_request
     = inl "no credentials"
  /\ log parse_braced decode_any no_credentials "default" "web-0" "app"
       [line1] (IsFunction recorder) None streamed []
     = mkSt (Rejected (ApplyRejected "no credentials")) [local_request] []
         false [line1] [].
Proof.
  split; [reflexivity|]. split; [reflexivity|].
  apply (apply_rejection_stops_before_request parse_braced decode_any);
    reflexivity.
Defined.

Lemma settlement_is_final_witness :
  promise (log parse_braced decode_any local_cluster "default" "web-0" "app"
             [] (IsFunction recorder) None [EvResponse ok] []) <> Pending
  /\ promise (log parse_braced decode_any local_cluster "default" "web-0"
                "app" [] (IsFunction recorder) None
                ([EvResponse ok] ++ [EvCallback (Some "ECONNRESET") None ""])
                [])
     = promise (log parse_braced decode_any local_cluster "default" "web-0"
                  "app" [] (IsFunction recorder) None [EvResponse ok] []).
Proof.
  split; [discriminate|].
  apply (settlement_is_final parse_braced decode_any). discriminate.
Defined.


Lemma callback_silent_before_completion_witness :
  completes early_data = false
  /\ world (log parse_braced decode_any local_cluster "default" "web-0" "app"
              [] (IsFunction recorder) None early_data []) = [].
Proof.
  split; [reflexivity|].
  apply (callback_silent_before_completion parse_braced decode_any).
  reflexivity.
Defined.

Lemma callback_at_most_once_witness :
  transport_protocol streamed = true
  /\ (world (log parse_braced decode_any local_cluster "default" "web-0"
               "app" [] (IsFunction recorder) None streamed []) = []
      \/ exists a,
           world (log parse_braced decode_any local_cluster "default" "web-0"
                    "app" [] (IsFunction recorder) None streamed [])
           = recorder a []).
Proof.
  split; [reflexivity|].
  apply (callback_at_most_once parse_braced decode_any). reflexivity.
Defined.

Lemma sink_is_data_after_ok_headers_witness :
  requested (log parse_braced decode_any local_cluster "default" "web-0"
               "app" [line1] (IsFunction recorder) None early_data [])
  = [local_request]
  /\ sink (log parse_braced decode_any local_cluster "default" "web-0" "app"
             [line1] (IsFunction recorder) None early_data [])
     = [line1] ++ [line2].
Proof.
  split; [reflexivity|].
  apply (sink_is_data_after_ok_headers parse_braced decode_any local_cluster
           "default" "web-0" "app" [line1] (IsFunction recorder) None
           early_data [] local_request).
  reflexivity.
Defined.

Lemma container_key_in_options_is_irrelevant_witness :
  (disambiguate (TransportError := string) (World := unit) IsUndefined
     (Some conflicting_options)).1
  = (disambiguate (IsOptions container_only) None).1
  /\ delete "container"
       (default ∅ (disambiguate (TransportError := string) (World := unit)
                     IsUndefined (Some conflicting_options)).2)
     = delete "container"
         (default ∅ (disambiguate (TransportError := string) (World := unit)
                       (IsOptions container_only) None).2)
  /\ log parse_braced decode_any local_cluster "default" "web-0" "app" []
       IsUndefined (Some conflicting_options) streamed tt
     = log parse_braced decode_any local_cluster "default" "web-0" "app" []
         (IsOptions container_only) None streamed tt.
Proof.
  split; [reflexivity|]. split; [reflexivity|].
  apply (container_key_in_options_is_irrelevant parse_braced decode_any);
    reflexivity.
Defined.

Lemma fulfilled_only_after_ok_headers_witness :
  promise (log parse_braced decode_any local_cluster "default" "web-0" "app"
             [] (IsFunction recorder) None streamed [])
  = Fulfilled (mkRequest local_request)
  /\ (exists ro',
        mkRequest local_request = mkRequest ro'
        /\ requested (log parse_braced decode_any local_cluster "default"
                        "web-0" "app" [] (IsFunction recorder) None streamed
                        []) = [ro'])
  /\ ok_headers streamed = true
  /\ piped (log parse_braced decode_any local_cluster "default" "web-0" "app"
              [] (IsFunction recorder) None streamed []) = true.
Proof.
  split; [reflexivity|].
  apply (fulfilled_only_after_ok_headers parse_braced decode_any).
  reflexivity.
Defined.

Lemma rejections_are_accounted_for_witness :
  promise (log parse_braced decode_any local_cluster "default" "web-0" "app"
             [] (IsFunction recorder) None missing [])
  = Rejected (ApiFailure (mkHttpError not_found (Decoded status_body) 404))
  /\ 404 = statusCode not_found
  /\ 404 <> 200
  /\ exists body,
       In (EvCallback (TransportError := string) None (Some not_found) body)
         missing
       /\ (Decoded status_body = Raw body
           \/ exists json status,
                parse_braced body = Some json
                /\ decode_any json "V1Status" = Some status
                /\ Decoded status_body = Decoded status).
Proof.
  split; [reflexivity|].
  apply (rejections_are_accounted_for parse_braced decode_any local_cluster
           "default" "web-0" "app" [] (IsFunction recorder) None missing []
           (ApiFailure (mkHttpError not_found (Decoded status_body) 404))).
  reflexivity.
Defined.
